(** * pgn_reading.py: games of a PGN file as rows of a 41-column table

    A shallow embedding of [src/pgn_reading.py].  The script reads the games
    of a PGN file one at a time, renders the first 40 plies of each game in
    standard algebraic notation (SAN), appends the game's [Result] header and
    hands the rows to a data frame that is printed and written to [data.csv].

    The two libraries the script calls are not part of the repository:
    - python-chess ([chess.pgn]) is an interface, the class [PgnLib], with
      two facts about the games it reads, the class [PgnLaws];
    - pandas is modelled by what its constructor and [to_csv] do with a list
      of rows of strings (module [pd]). *)

From Stdlib Require Import Ascii.
From stdpp Require Import gmap strings list pretty.

Open Scope string_scope.
Open Scope list_scope.
Open Scope nat_scope.

(** ** Exceptions

    The script has no [try]: an exception raised by a call ends the run.
    [Diverge] stands for a loop that has not ended when its fuel is used up;
    [read_loop_fuel] shows that the fuel given is always enough. *)

Inductive exn :=
  | FileNotFoundError (path : string)
  | KeyError (key : string)
  | ValueError (msg : string).

Inductive result (A : Type) :=
  | Ok (a : A)
  | Raise (e : exn)
  | Diverge.
Arguments Ok {A} a.
Arguments Raise {A} e.
Arguments Diverge {A}.

#[global] Instance result_ret : MRet result := @Ok.
#[global] Instance result_bind : MBind result := λ A B f m,
  match m with
  | Ok a => f a
  | Raise e => Raise e
  | Diverge => Diverge
  end.

(** ** python-chess

    What the script uses of [chess] and [chess.pgn].  A mutable [chess.Board]
    is passed as a value: [push board move] is the board after
    [board.push(move)].  An open text file is the text that is left to read;
    [read_game] returns the next game and the text after it, or [None] at the
    end of the input (and it cannot return a game without reading). *)

Record Game (Board Move : Type) := {
  game_board : Board;                  (* game.board() *)
  mainline_moves : list Move;          (* game.mainline_moves() *)
  headers : gmap string string;        (* game.headers *)
}.
Arguments game_board {Board Move} _.
Arguments mainline_moves {Board Move} _.
Arguments headers {Board Move} _.

Class PgnLib := {
  Board : Type;
  Move : Type;
  san : Board → Move → string;                    (* board.san(move) *)
  push : Board → Move → Board;                    (* board.push(move) *)
  starting_board : Board;                         (* chess.Board() *)
  parse_san : Board → string → option Move;       (* board.parse_san(s) *)
  read_game : string → option (Game Board Move * string);
  read_game_consumes : ∀ f game f',
    read_game f = Some (game, f') → String.length f' < String.length f;
}.

(** [headers[key]]: a missing key raises [KeyError]. *)
Definition getitem (h : gmap string string) (key : string) : result string :=
  match h !! key with
  | Some v => Ok v
  | None => Raise (KeyError key)
  end.

(** ** pandas *)

Module pd.

(** A frame of strings: the column labels and the rows, a missing cell
    being [None]. *)
Record DataFrame := {
  columns : list string;
  values : list (list (option string));
}.

(** The width of the object array built from a list of rows: the length
    of the longest row. *)
Definition width (data : list (list string)) : nat :=
  foldr (λ row k, length row `max` k) 0 data.

(** A row copied into an array of [k] columns; the cells after its last
    entry stay [None]. *)
Definition object_row (k : nat) (row : list string) : list (option string) :=
  (Some <$> row) ++ replicate (k - length row) None.

(** [pd.DataFrame(data, columns=columns)] for a list of lists.  An empty
    list gives an empty frame with the columns asked for.  Otherwise
    pandas copies the rows into an object array as wide as the longest
    row ([lib.to_object_array]; the cells a shorter row leaves stay
    [None]) and checks the labels against it: when their number is not
    the number of columns of the array the constructor raises
    [ValueError("<n> columns passed, passed data had <k> columns")]. *)
Definition DataFrame_init (data : list (list string)) (columns : list string)
  : result DataFrame :=
  match data with
  | [] => Ok {| columns := columns; values := [] |}
  | _ =>
      let k := width data in
      if Nat.eqb (length columns) k
      then Ok {| columns := columns; values := object_row k <$> data |}
      else Raise (ValueError (pretty (length columns) +:+ " columns passed, passed data had "
                              +:+ pretty k +:+ " columns"))
  end.

(** [to_csv(path, index=False)] with its other defaults: no index
    column, separator [,], a missing cell written as the empty string
    ([na_rep]), a field quoted only when it holds a separator, a quote or
    a line break ([csv.QUOTE_MINIMAL], quotes doubled), each line ended
    by a line feed.  The header line comes first, then a line per row. *)
Definition comma : ascii := ","%char.
Definition quotechar : ascii := "034"%char.
Definition LF : ascii := "010"%char.
Definition CR : ascii := "013"%char.

Definition special (c : ascii) : bool :=
  Ascii.eqb c comma || Ascii.eqb c quotechar || Ascii.eqb c LF || Ascii.eqb c CR.

Fixpoint needs_quotes (s : string) : bool :=
  match s with
  | EmptyString => false
  | String c s => special c || needs_quotes s
  end.

Fixpoint double_quotes (s : string) : string :=
  match s with
  | EmptyString => EmptyString
  | String c s =>
      if Ascii.eqb c quotechar
      then String quotechar (String quotechar (double_quotes s))
      else String c (double_quotes s)
  end.

Definition csv_field (s : string) : string :=
  if needs_quotes s
  then String quotechar (double_quotes s) +:+ String quotechar EmptyString
  else s.

Fixpoint join (sep : ascii) (fields : list string) : string :=
  match fields with
  | [] => EmptyString
  | [s] => s
  | s :: fields => s +:+ String sep (join sep fields)
  end.

Definition csv_line (fields : list string) : string :=
  join comma (csv_field <$> fields) +:+ String LF EmptyString.

Definition na_rep (cell : option string) : string := default EmptyString cell.

Definition to_csv (df : DataFrame) : string :=
  csv_line (columns df) +:+ String.concat EmptyString (csv_line ∘ fmap na_rep <$> values df).

End pd.

(** [print(dataframe)] shows pandas' rendering of the frame, which the
    script does not decide. *)
Class FrameRepr := frame_repr : pd.DataFrame → string.

(** ** The script *)

Section script.
Context `{chess : PgnLib} `{pandas : FrameRepr}.

(** The [for] loop over [game.mainline_moves()], lines 16 to 20: [moves]
    and [board] are the two variables it updates, and it stops at the end
    of the mainline or as soon as [moves] holds 40 entries. *)
Fixpoint mainline_loop (mainline : list Move) (moves : list string) (board : Board)
  : list string * Board :=
  match mainline with
  | [] => (moves, board)
  | move :: mainline =>
      let moves := moves ++ [san board move] in
      let board := push board move in
      if Nat.eqb (length moves) 40 then (moves, board)
      else mainline_loop mainline moves board
  end.

(** The body of the [while] loop for one game, lines 13 to 23: the list
    that is appended to [games]. *)
Definition game_row (game : Game Board Move) : result (list string) :=
  let moves := [] in
  let board := game_board game in
  let '(moves, _) := mainline_loop (mainline_moves game) moves board in
  result ← getitem (headers game) "Result";
  mret (moves ++ [result]).

(** The [while True] loop, lines 8 to 24, on the text [f] left to read. *)
Fixpoint read_loop (fuel : nat) (f : string) (games : list (list string))
  : result (list (list string)) :=
  match fuel with
  | 0 => Diverge
  | S fuel =>
      match read_game f with
      | None => mret games
      | Some (game, f) =>
          moves ← game_row game;
          read_loop fuel f (games ++ [moves])
      end
  end.

(** [open(pgn_file)] on the files [fs]: the text of the file. *)
Definition open (fs : gmap string string) (pgn_file : string) : result string :=
  match fs !! pgn_file with
  | Some f => Ok f
  | None => Raise (FileNotFoundError pgn_file)
  end.

(** The [with] block, lines 5 to 24: the list [games] when it ends. *)
Definition read_rows (fs : gmap string string) (pgn_file : string)
  : result (list (list string)) :=
  let games := [] in
  f ← open fs pgn_file;
  read_loop (S (String.length f)) f games.

(** [[f"Ply {i+1}" for i in range(40)] + ["Result"]] *)
Definition column_names : list string :=
  ((λ i, "Ply " +:+ pretty (i + 1)) <$> seq 0 40) ++ ["Result"].

Definition pgn_to_dataframe (fs : gmap string string) (pgn_file : string)
  : result pd.DataFrame :=
  games ← read_rows fs pgn_file;
  pd.DataFrame_init games column_names.

(** The module's top level, lines 30 to 34, on the files and the standard
    output of the process.  [files] holds the text of each file that can be
    read as text; printing and writing [data.csv] are taken to succeed, so
    the exceptions of a run are those of [pgn_to_dataframe]. *)
Record World := {
  files : gmap string string;
  stdout : list string;
}.

Definition pgn_file_path : string := "lichess_db_standard_rated_2016-02.1.1.pgn".

Definition print (s : string) (w : World) : World :=
  {| files := files w; stdout := stdout w ++ [s] |}.

Definition write_file (path text : string) (w : World) : World :=
  {| files := <[path := text]> (files w); stdout := stdout w |}.

Definition main (w : World) : result unit * World :=
  match pgn_to_dataframe (files w) pgn_file_path with
  | Ok dataframe =>
      let w := print (frame_repr dataframe) w in
      let w := write_file "data.csv" (pd.to_csv dataframe) w in
      (Ok (), w)
  | Raise e => (Raise e, w)
  | Diverge => (Diverge, w)
  end.

End script.

(** ** Notions of the specification *)

Section notions.
Context `{chess : PgnLib}.

(** The notation of each move of [mainline] in order, each one rendered
    on the board that the moves before it lead to from [board]. *)
Fixpoint san_line (board : Board) (mainline : list Move) : list string :=
  match mainline with
  | [] => []
  | move :: mainline => san board move :: san_line (push board move) mainline
  end.

(** Replaying notation: each string is parsed on the current board and
    the move it names is applied; [None] when a string names no move. *)
Fixpoint replay (board : Board) (sans : list string) : option (list Move) :=
  match sans with
  | [] => Some []
  | s :: sans =>
      move ← parse_san board s;
      mainline ← replay (push board move) sans;
      Some (move :: mainline)
  end.

(** The library's parser gives back each move of [mainline] from its
    notation, on the board where the move is played. *)
Fixpoint parse_inverts_san (board : Board) (mainline : list Move) : Prop :=
  match mainline with
  | [] => True
  | move :: mainline =>
      parse_san board (san board move) = Some move
      ∧ parse_inverts_san (push board move) mainline
  end.

(** The games that [read_game] returns one after the other on the text
    [f], until it returns [None]. *)
Fixpoint read_all (fuel : nat) (f : string) : list (Game Board Move) :=
  match fuel with
  | 0 => []
  | S fuel =>
      match read_game f with
      | None => []
      | Some (game, f) => game :: read_all fuel f
      end
  end.

Definition games_of (f : string) : list (Game Board Move) :=
  read_all (S (String.length f)) f.

End notions.

(** Two facts about the games that [chess.pgn.read_game] returns, which the
    script relies on without checking them.
    - A game always has a [Result] header: the parser starts every game
      with the seven standard headers, [Result] being [*], and the input
      can only give the header another value.
    - The mainline was parsed from notation, move by move, on the game's
      own boards, and [board.parse_san] gives back a legal move from the
      notation [board.san] writes for it. *)
Class PgnLaws `{chess : PgnLib} := {
  read_game_result : ∀ f game f',
    read_game f = Some (game, f') → is_Some (headers game !! "Result");
  read_game_round_trip : ∀ f game f',
    read_game f = Some (game, f') →
    parse_inverts_san (game_board game) (mainline_moves game);
}.

(** The header line of the table, as [to_csv] writes it. *)
Definition header_row : string :=
  "Ply 1,Ply 2,Ply 3,Ply 4,Ply 5,Ply 6,Ply 7,Ply 8,Ply 9,Ply 10,Ply 11,Ply 12,Ply 13,Ply 14,Ply 15,Ply 16,Ply 17,Ply 18,Ply 19,Ply 20,Ply 21,Ply 22,Ply 23,Ply 24,Ply 25,Ply 26,Ply 27,Ply 28,Ply 29,Ply 30,Ply 31,Ply 32,Ply 33,Ply 34,Ply 35,Ply 36,Ply 37,Ply 38,Ply 39,Ply 40,Result"
  +:+ String pd.LF EmptyString.

(** The fields of the line that [to_csv] writes for a row of a table of 41
    columns: the row, then an empty field for each cell that is missing. *)
Definition padded (row : list string) : list string :=
  row ++ replicate (41 - length row) EmptyString.

(** ** A small chess library

    An instance of [PgnLib] on which the script runs inside Rocq.  Boards
    are piece placements; pawns, knights and kings move as in chess (single
    and double pawn steps, pawn captures, knight jumps, king steps), the
    other pieces stand still; SAN is the piece letter, [x] for a capture and
    the target square, and a notation that two moves share names neither.
    A game is one line of text, written as the movetext of a PGN game: move
    numbers, moves in SAN and the result; a first word [fen:] followed by a
    piece placement sets the starting position, as a [FEN] header does. *)

Module Mini.

Inductive kind := Pawn | Knight | Bishop | Rook | Queen | King.

Record piece := { white : bool; what : kind }.

(** File and rank, both from 0 to 7. *)
Definition square : Type := nat * nat.

Record board := {
  placement : list (square * piece);
  white_to_move : bool;
}.

Definition move : Type := square * square.

Definition same_square (a b : square) : bool :=
  Nat.eqb a.1 b.1 && Nat.eqb a.2 b.2.

Definition piece_at (b : board) (sq : square) : option piece :=
  snd <$> find (λ e, same_square e.1 sq) (placement b).

Definition letter (k : kind) : string :=
  match k with
  | Pawn => "" | Knight => "N" | Bishop => "B"
  | Rook => "R" | Queen => "Q" | King => "K"
  end.

Definition file_name (sq : square) : string :=
  String (ascii_of_nat (97 + sq.1)) EmptyString.

Definition square_name (sq : square) : string :=
  file_name sq +:+ String (ascii_of_nat (49 + sq.2)) EmptyString.

Definition san (b : board) (m : move) : string :=
  match piece_at b m.1 with
  | None => "--"
  | Some p =>
      match piece_at b m.2, what p with
      | None, k => letter k +:+ square_name m.2
      | Some _, Pawn => file_name m.1 +:+ "x" +:+ square_name m.2
      | Some _, k => letter k +:+ "x" +:+ square_name m.2
      end
  end.

Definition push (b : board) (m : move) : board :=
  match piece_at b m.1 with
  | None => {| placement := placement b; white_to_move := negb (white_to_move b) |}
  | Some p =>
      {| placement :=
           (m.2, p) :: filter (λ e, e.1 ≠ m.1 ∧ e.1 ≠ m.2) (placement b);
         white_to_move := negb (white_to_move b) |}
  end.

Definition dist (a b : nat) : nat := (a - b) + (b - a).

Definition free (b : board) (sq : square) : bool :=
  if piece_at b sq is Some _ then false else true.

Definition enemy (b : board) (p : piece) (sq : square) : bool :=
  match piece_at b sq with
  | Some q => negb (eqb (white p) (white q))
  | None => false
  end.

(** May the piece [p] on [from] go to [to]?  The way is looked at first,
    then the squares. *)
Definition reaches (b : board) (p : piece) (from to : square) : bool :=
  let df := dist from.1 to.1 in
  let dr := dist from.2 to.2 in
  match what p with
  | Pawn =>
      let forward n :=
        if white p then Nat.eqb to.2 (from.2 + n) else Nat.eqb (to.2 + n) from.2 in
      let home := if white p then 1 else 6 in
      let between := (from.1, if white p then from.2 + 1 else from.2 - 1) in
      if Nat.eqb df 0 then
        if forward 1 then free b to
        else if forward 2 && Nat.eqb from.2 home then free b between && free b to
        else false
      else if Nat.eqb df 1 && forward 1 then enemy b p to
      else false
  | Knight =>
      if (Nat.eqb df 1 && Nat.eqb dr 2) || (Nat.eqb df 2 && Nat.eqb dr 1)
      then free b to || enemy b p to
      else false
  | King =>
      if Nat.leb df 1 && Nat.leb dr 1 && negb (Nat.eqb df 0 && Nat.eqb dr 0)
      then free b to || enemy b p to
      else false
  | _ => false
  end.

Definition squares : list square :=
  file ← seq 0 8; rank ← seq 0 8; [(file, rank)].

Definition candidates (b : board) : list move :=
  e ← placement b;
  if eqb (white e.2) (white_to_move b)
  then to ← squares; if reaches b e.2 e.1 to then [(e.1, to)] else []
  else [].

Definition parse_san (b : board) (s : string) : option move :=
  match filter (λ m, san b m = s) (candidates b) with
  | [m] => Some m
  | _ => None
  end.

Definition back_rank : list kind :=
  [Rook; Knight; Bishop; Queen; King; Bishop; Knight; Rook].

Definition starting_board : board :=
  {| placement :=
       imap (λ file k, ((file, 0), {| white := true; what := k |})) back_rank
       ++ ((λ file, ((file, 1), {| white := true; what := Pawn |})) <$> seq 0 8)
       ++ ((λ file, ((file, 6), {| white := false; what := Pawn |})) <$> seq 0 8)
       ++ imap (λ file k, ((file, 7), {| white := false; what := k |})) back_rank;
     white_to_move := true |}.

(** *** Reading games *)

(** The text up to the first line feed, and the text after it. *)
Fixpoint split_line (s : string) : string * string :=
  match s with
  | EmptyString => (EmptyString, EmptyString)
  | String c s =>
      if Ascii.eqb c pd.LF then (EmptyString, s)
      else let '(line, rest) := split_line s in (String c line, rest)
  end.

(** The text without the empty lines it starts with. *)
Fixpoint skip_blank (s : string) : string :=
  match s with
  | EmptyString => EmptyString
  | String c s' => if Ascii.eqb c pd.LF then skip_blank s' else s
  end.

Fixpoint words_go (s word : string) : list string :=
  match s with
  | EmptyString => [word]
  | String c s =>
      if Ascii.eqb c " "%char then word :: words_go s EmptyString
      else words_go s (word +:+ String c EmptyString)
  end.

Definition words (s : string) : list string :=
  filter (λ w, w ≠ EmptyString) (words_go s EmptyString).

(** A move number, as in [12.]: a word that ends with a dot. *)
Fixpoint move_number (w : string) : bool :=
  match w with
  | EmptyString => false
  | String c EmptyString => Ascii.eqb c "."%char
  | String _ w => move_number w
  end.

(** [s] without the [prefix] it starts with. *)
Fixpoint strip (prefix s : string) : option string :=
  match prefix, s with
  | EmptyString, _ => Some s
  | String a prefix, String b s => if Ascii.eqb a b then strip prefix s else None
  | String _ _, EmptyString => None
  end.

(** The piece a letter of a piece placement stands for: upper case for
    White, lower case for Black. *)
Definition piece_of_letter (c : ascii) : option piece :=
  let lower := Nat.leb 97 (nat_of_ascii c) in
  let code := nat_of_ascii c - (if lower then 32 else 0) in
  let what :=
    if Nat.eqb code 80 then Some Pawn else if Nat.eqb code 78 then Some Knight
    else if Nat.eqb code 66 then Some Bishop else if Nat.eqb code 82 then Some Rook
    else if Nat.eqb code 81 then Some Queen else if Nat.eqb code 75 then Some King
    else None in
  (λ k, {| white := negb lower; what := k |}) <$> what.

(** The placement field of a FEN record, read from rank 8 down: [/] ends a
    rank, a digit skips that many files, a letter puts a piece. *)
Fixpoint placement_of_fen (s : string) (file rank : nat) : list (square * piece) :=
  match s with
  | EmptyString => []
  | String c s =>
      if Ascii.eqb c "/"%char then placement_of_fen s 0 (rank - 1)
      else match piece_of_letter c with
           | Some p => ((file, rank), p) :: placement_of_fen s (S file) rank
           | None => placement_of_fen s (file + (nat_of_ascii c - 48)) rank
           end
  end.

Definition board_of_fen (fen : string) : board :=
  {| placement := placement_of_fen fen 0 7; white_to_move := true |}.

(** The mainline that the words name, each one parsed on the board the
    moves before it lead to; it ends at the first word that names no move
    (the result, or a move that cannot be played). *)
Fixpoint parse_line (b : board) (ws : list string) : list move :=
  match ws with
  | [] => []
  | w :: ws =>
      match parse_san b w with
      | Some m => m :: parse_line (push b m) ws
      | None => []
      end
  end.

Definition result_tags : list string := ["1-0"; "0-1"; "1/2-1/2"; "*"].

(** The position a line sets up, if it does. *)
Definition set_up (ws : list string) : option string :=
  w ← head ws; strip "fen:" w.

(** The game a line holds.  Its [Result] header is [*] unless the line
    ends with another result. *)
Definition game_of_line (line : string) : Game board move :=
  let ws := filter (λ w, move_number w = false) (words line) in
  let fen := set_up ws in
  let ws := if fen is Some _ then tail ws else ws in
  let b := from_option board_of_fen starting_board fen in
  {| game_board := b;
     mainline_moves := parse_line b ws;
     headers :=
       <[ "Result" :=
            match last ws with
            | Some w => if bool_decide (w ∈ result_tags) then w else "*"
            | None => "*"
            end ]> (from_option (λ fen, {[ "FEN" := fen ]}) ∅ fen) |}.

(** The next game is the first line that is not empty. *)
Definition read_game (f : string) : option (Game board move * string) :=
  match skip_blank f with
  | EmptyString => None
  | f => let '(line, rest) := split_line f in Some (game_of_line line, rest)
  end.

(** A text of the given lines. *)
Definition text (lines : list string) : string :=
  String.concat EmptyString ((λ line, line +:+ String pd.LF EmptyString) <$> lines).

(** The files of a process that has [text] under the script's input
    path, and nothing printed yet. *)
Definition world (text : string) : World :=
  {| files := {[ pgn_file_path := text ]}; stdout := [] |}.

(** *** Games to run the script on *)

(** Three half-moves and the result [1-0]. *)
Definition opening : string := "1. e4 e5 2. Nf3 1-0".

(** Both king's knights go out and back ten times and out once more: 42
    half-moves. *)
Definition knights_out_and_back : string :=
  "Nf3 Nf6 Ng1 Ng8 Nf3 Nf6 Ng1 Ng8 Nf3 Nf6 Ng1 Ng8 Nf3 Nf6 Ng1 Ng8 Nf3 Nf6 Ng1 Ng8 Nf3 Nf6 Ng1 Ng8 Nf3 Nf6 Ng1 Ng8 Nf3 Nf6 Ng1 Ng8 Nf3 Nf6 Ng1 Ng8 Nf3 Nf6 Ng1 Ng8 Nf3 Nf6".

Definition knights : string := knights_out_and_back +:+ " 1/2-1/2".

(** A game with the given result and no move. *)
Definition unplayed (result : string) : Game board move :=
  {| game_board := starting_board;
     mainline_moves := [];
     headers := {[ "Result" := result ]} |}.

(** A game that starts from a position of its own: the two kings and a
    white pawn on e4, which steps to e5. *)
Definition pawn_ending : string := "fen:4k3/8/8/8/4P3/8/8/4K3 1. e5 *".

Lemma split_line_rest s : String.length (split_line s).2 ≤ String.length s.
Proof.
  induction s as [|c s IH]; simpl; [lia|].
  destruct (Ascii.eqb c pd.LF); simpl; [lia|].
  destruct (split_line s) as [line rest]; simpl in *; lia.
Qed.

Lemma skip_blank_length s : String.length (skip_blank s) ≤ String.length s.
Proof.
  induction s as [|c s IH]; simpl; [lia|].
  destruct (Ascii.eqb c pd.LF); simpl; lia.
Qed.

Lemma read_game_line f game f' :
  read_game f = Some (game, f') → ∃ line, game = game_of_line line.
Proof.
  unfold read_game. destruct (skip_blank f) as [|c s]; [done|].
  destruct (split_line (String c s)) as [line rest]. intros [= <- _]. by exists line.
Qed.

Lemma read_game_rest f game f' :
  read_game f = Some (game, f') → String.length f' < String.length f.
Proof.
  unfold read_game. pose proof (skip_blank_length f) as Hskip.
  destruct (skip_blank f) as [|c s]; [done|].
  destruct (split_line (String c s)) as [line rest] eqn:E.
  intros [= _ <-]. simpl in E, Hskip.
  destruct (Ascii.eqb c pd.LF).
  - injection E as _ <-. lia.
  - pose proof (split_line_rest s) as Hs.
    destruct (split_line s) as [l r]; injection E as _ <-. simpl in *; lia.
Qed.

(** A word that the parser reads as a move is the notation of that move. *)
Lemma parse_san_san b s m : parse_san b s = Some m → san b m = s.
Proof.
  unfold parse_san.
  destruct (filter (λ m, san b m = s) (candidates b)) as [|m' [|m'' l]] eqn:E; [done| |done].
  intros [= <-].
  assert (m' ∈ filter (λ m, san b m = s) (candidates b)) as Hin
    by (rewrite E; apply list_elem_of_here).
  by apply list_elem_of_filter in Hin as [? _].
Qed.

(** *** The library *)

#[export] Instance lib : PgnLib :=
  Build_PgnLib board move san push starting_board parse_san read_game read_game_rest.

Lemma parse_line_inverts b ws : parse_inverts_san (chess:=lib) b (parse_line b ws).
Proof.
  revert b; induction ws as [|w ws IH]; intros b; simpl; [done|].
  destruct (parse_san b w) as [m|] eqn:E; simpl; [|done].
  split; [|apply IH].
  change (parse_san b (san b m) = Some m). by rewrite (parse_san_san _ _ _ E).
Qed.

Lemma read_game_has_result f game f' :
  read_game f = Some (game, f') → is_Some (headers game !! "Result").
Proof.
  intros [line ->]%read_game_line. unfold game_of_line; simpl.
  rewrite lookup_insert_eq. by eexists.
Qed.

Lemma read_game_inverts f game f' :
  read_game f = Some (game, f') →
  parse_inverts_san (chess:=lib) (game_board game) (mainline_moves game).
Proof. intros [line ->]%read_game_line. apply parse_line_inverts. Qed.

#[export] Instance laws : PgnLaws :=
  {| read_game_result := read_game_has_result;
     read_game_round_trip := read_game_inverts |}.

(** The frame is shown as the text [to_csv] writes. *)
#[export] Instance repr : FrameRepr := pd.to_csv.

End Mini.


(** * Properties *)

(** ** The error monad *)

Lemma bind_Ok {A B} (m : result A) (f : A → result B) b :
  m ≫= f = Ok b → ∃ a, m = Ok a ∧ f a = Ok b.
Proof. destruct m as [a| |]; [eauto|done|done]. Qed.

(** ** One game *)

Section one_game.
Context `{chess : PgnLib}.

Lemma san_line_length board mainline :
  length (san_line board mainline) = length mainline.
Proof.
  revert board; induction mainline as [|move mainline IH]; intros board; simpl; [done|].
  by rewrite IH.
Qed.

(** The loop adds to [moves] the notation of the moves that fit below the
    cutoff of 40 entries. *)
Lemma mainline_loop_moves mainline moves board :
  length moves < 40 →
  (mainline_loop mainline moves board).1
  = moves ++ san_line board (take (40 - length moves) mainline).
Proof.
  revert moves board.
  induction mainline as [|move mainline IH]; intros moves board Hlen; simpl.
  - by rewrite take_nil, app_nil_r.
  - rewrite length_app; simpl.
    destruct (Nat.eqb_spec (length moves + 1) 40) as [E|E]; simpl.
    + by replace (40 - length moves) with 1 by lia.
    + rewrite IH by (rewrite length_app; simpl; lia).
      rewrite length_app; simpl.
      replace (40 - length moves) with (S (40 - (length moves + 1))) by lia.
      simpl. by rewrite <- app_assoc.
Qed.

Lemma game_row_moves game :
  game_row game =
    result ← getitem (headers game) "Result";
    mret (san_line (game_board game) (take 40 (mainline_moves game)) ++ [result]).
Proof.
  unfold game_row.
  pose proof (mainline_loop_moves (mainline_moves game) [] (game_board game)) as Hloop.
  destruct (mainline_loop _ _ _) as [moves board]; simpl in *.
  by rewrite Hloop by lia.
Qed.

Lemma game_row_Some game result :
  headers game !! "Result" = Some result →
  game_row game
  = Ok (san_line (game_board game) (take 40 (mainline_moves game)) ++ [result]).
Proof. intros Hres. rewrite game_row_moves. unfold getitem. by rewrite Hres. Qed.

Lemma game_row_None game :
  headers game !! "Result" = None → game_row game = Raise (KeyError "Result").
Proof. intros Hres. rewrite game_row_moves. unfold getitem. by rewrite Hres. Qed.

Lemma game_row_Ok game row :
  game_row game = Ok row →
  ∃ result, headers game !! "Result" = Some result
    ∧ row = san_line (game_board game) (take 40 (mainline_moves game)) ++ [result].
Proof.
  rewrite game_row_moves. unfold getitem.
  destruct (headers game !! "Result") as [result|]; [|done].
  intros [= <-]. eauto.
Qed.

End one_game.

Section rows.
Context `{chess : PgnLib}.

(** C1.  A game whose mainline has more than 40 half-moves gives the row made
    of the notation of its first 40 moves, in order, followed by its result
    tag: 41 entries. *)
Theorem row_of_long_game game result :
  40 < length (mainline_moves game) →
  headers game !! "Result" = Some result →
  ∃ row, game_row game = Ok row
    ∧ row = san_line (game_board game) (take 40 (mainline_moves game)) ++ [result]
    ∧ length (take 40 (mainline_moves game)) = 40
    ∧ length row = 41.
Proof.
  intros Hlong Hres. eexists; split; [by apply game_row_Some|].
  split; [done|].
  assert (length (take 40 (mainline_moves game)) = 40) as Hlen
    by (rewrite length_take; lia).
  split; [done|].
  by rewrite length_app, san_line_length, Hlen.
Qed.

(** C2.  A game with exactly N half-moves, N at most 40, gives the row made
    of the notation of its N moves followed by its result tag: N + 1 entries,
    with nothing added to fill the row up to 41. *)
Theorem row_of_short_game game result N :
  length (mainline_moves game) = N →
  N ≤ 40 →
  headers game !! "Result" = Some result →
  ∃ row, game_row game = Ok row
    ∧ row = san_line (game_board game) (mainline_moves game) ++ [result]
    ∧ length row = N + 1.
Proof.
  intros HN Hshort Hres. eexists; split; [by apply game_row_Some|].
  rewrite take_ge by lia. split; [done|].
  by rewrite length_app, san_line_length, HN.
Qed.

(** C5.  The last entry of a game's row is the value of the game's [Result]
    header as it stands, whatever the value: so for each of [1-0], [0-1],
    [1/2-1/2] and [*]. *)
Theorem row_ends_with_result game result :
  headers game !! "Result" = Some result →
  ∃ row, game_row game = Ok row ∧ last row = Some result.
Proof.
  intros Hres. eexists; split; [by apply game_row_Some|].
  by rewrite last_snoc.
Qed.

(** C9.  Every row that is assembled has between 1 and 41 entries and ends
    with the game's result tag; the row of a game without moves is that tag
    alone. *)
Theorem row_is_not_empty game row :
  game_row game = Ok row →
  1 ≤ length row ≤ 41
  ∧ ∃ result, headers game !! "Result" = Some result
      ∧ last row = Some result
      ∧ (mainline_moves game = [] → row = [result]).
Proof.
  intros (result & Hres & ->)%game_row_Ok.
  rewrite length_app, san_line_length, length_take.
  change (length [result]) with 1.
  split; [lia|]. exists result. split; [done|]. split; [by rewrite last_snoc|].
  by intros ->.
Qed.

Lemma replay_san_line board mainline :
  parse_inverts_san board mainline →
  replay board (san_line board mainline) = Some mainline.
Proof.
  revert board; induction mainline as [|move mainline IH]; intros board; simpl; [done|].
  intros [-> Hrest]; simpl. by rewrite IH.
Qed.

End rows.

(** ** The whole run *)

Section run.
Context `{chess : PgnLib} `{pandas : FrameRepr}.

(** Each call of [read_game] that returns a game shortens the text, so the
    fuel [S (String.length f)] is never used up and the games read do not
    depend on it. *)
Lemma read_all_fuel n m f :
  String.length f < n → String.length f < m → read_all n f = read_all m f.
Proof.
  revert m f; induction n as [|n IH]; intros [|m] f Hn Hm; [lia..|]; simpl.
  destruct (read_game f) as [[game f']|] eqn:Hread; [|done].
  apply read_game_consumes in Hread. f_equal. apply IH; lia.
Qed.

Lemma read_loop_fuel fuel f games :
  String.length f < fuel →
  read_loop fuel f games = rows ← mapM game_row (read_all fuel f); mret (games ++ rows).
Proof.
  revert f games; induction fuel as [|fuel IH]; intros f games Hfuel; [lia|]; simpl.
  destruct (read_game f) as [[game f']|] eqn:Hread; simpl.
  - apply read_game_consumes in Hread.
    destruct (game_row game) as [moves| |]; simpl; [|done..].
    rewrite IH by lia.
    destruct (mapM game_row (read_all fuel f')) as [rows| |]; simpl; [|done..].
    by rewrite <- app_assoc.
  - by rewrite app_nil_r.
Qed.

Lemma read_rows_games fs pgn_file f :
  fs !! pgn_file = Some f →
  read_rows fs pgn_file = mapM game_row (games_of f).
Proof.
  intros Hf. unfold read_rows, open, games_of. rewrite Hf; simpl.
  destruct (read_game f) as [[game f']|] eqn:Hread; simpl; [|done].
  apply read_game_consumes in Hread.
  destruct (game_row game) as [moves| |]; simpl; [|done..].
  rewrite read_loop_fuel by lia.
  by destruct (mapM game_row _) as [rows| |].
Qed.

Lemma read_rows_ends fs pgn_file : read_rows fs pgn_file ≠ Diverge.
Proof.
  destruct (fs !! pgn_file) as [f|] eqn:Hf.
  - rewrite (read_rows_games _ _ f Hf).
    induction (games_of f) as [|game games IH]; simpl; [done|].
    rewrite game_row_moves. unfold getitem.
    destruct (headers game !! "Result"); simpl; [|done].
    by destruct (mapM game_row games).
  - unfold read_rows, open. by rewrite Hf.
Qed.

Lemma mapM_game_row_length games rows :
  mapM game_row games = Ok rows → length rows = length games.
Proof.
  revert rows; induction games as [|game games IH]; intros rows; simpl.
  - by intros [= <-].
  - intros (row & _ & (rows' & Hrows & [= <-])%bind_Ok)%bind_Ok. simpl. by rewrite (IH rows').
Qed.

Lemma mapM_game_row_Ok games :
  Forall (λ game, is_Some (headers game !! "Result")) games →
  ∃ rows, mapM game_row games = Ok rows.
Proof.
  induction 1 as [|game games [result Hres] _ [rows Hrows]]; simpl.
  - by eexists.
  - rewrite (game_row_Some _ _ Hres), Hrows; simpl. by eexists.
Qed.

Lemma column_names_length : length column_names = 41.
Proof. reflexivity. Qed.

Lemma csv_line_column_names : pd.csv_line column_names = header_row.
Proof. vm_compute. reflexivity. Qed.

(** C7.  On an input without games the table has no row and the 41 column
    labels, and the file written, [data.csv], is the header line alone. *)
Theorem no_games w f :
  files w !! pgn_file_path = Some f →
  read_game f = None →
  let table := {| pd.columns := column_names; pd.values := [] |} in
  pgn_to_dataframe (files w) pgn_file_path = Ok table
  ∧ length (pd.columns table) = 41
  ∧ pd.columns table !! 0 = Some "Ply 1"
  ∧ pd.columns table !! 39 = Some "Ply 40"
  ∧ pd.columns table !! 40 = Some "Result"
  ∧ pd.to_csv table = header_row
  ∧ main w = (Ok (), write_file "data.csv" header_row (print (frame_repr table) w))
  ∧ files (main w).2 !! "data.csv" = Some header_row
  ∧ stdout (main w).2 = stdout w ++ [frame_repr table].
Proof.
  intros Hf Hnone table.
  assert (pgn_to_dataframe (files w) pgn_file_path = Ok table) as Hdf.
  { unfold pgn_to_dataframe. rewrite (read_rows_games _ _ f Hf).
    unfold games_of; simpl. by rewrite Hnone. }
  assert (pd.to_csv table = header_row) as Hcsv by (vm_compute; reflexivity).
  do 6 (split; [done|]).
  unfold main. rewrite Hdf, Hcsv. split; [done|]. simpl.
  split; [apply lookup_insert_eq|done].
Qed.

End run.

(** ** The table and the file *)

Section table.
Context `{chess : PgnLib} `{pandas : FrameRepr}.

Lemma width_bound n data :
  Forall (λ row, length row ≤ n) data → pd.width data ≤ n.
Proof. induction 1 as [|row data Hrow _ IH]; simpl; lia. Qed.

Lemma mapM_game_row_short games :
  Forall (λ game, is_Some (headers game !! "Result")
                  ∧ length (mainline_moves game) < 40) games →
  ∃ rows, mapM game_row games = Ok rows
    ∧ length rows = length games
    ∧ Forall (λ row, length row ≤ 40) rows.
Proof.
  induction 1 as [|game games [[result Hres] Hshort] _ (rows & Hrows & Hlen & Hall)]; simpl.
  - by exists [].
  - rewrite (game_row_Some _ _ Hres), Hrows; simpl. eexists; split; [done|].
    split; [simpl; by rewrite Hlen|]. constructor; [|done].
    rewrite length_app, san_line_length, length_take. simpl length. lia.
Qed.

Lemma na_rep_object_row row :
  pd.na_rep <$> pd.object_row 41 row = padded row.
Proof.
  unfold pd.object_row, padded.
  rewrite fmap_app, fmap_replicate. f_equal.
  induction row as [|s row IH]; simpl; [done|]. by f_equal.
Qed.

Lemma csv_lines_object_rows (data : list (list string)) :
  pd.csv_line ∘ fmap pd.na_rep <$> (pd.object_row 41 <$> data)
  = pd.csv_line ∘ padded <$> data.
Proof.
  induction data as [|row data IH]; [done|].
  rewrite !fmap_cons, IH. simpl. by rewrite na_rep_object_row.
Qed.

(** The text written for a table that [pd.DataFrame] has accepted: the
    header line, then a line of 41 fields for each row, in order. *)
Lemma to_csv_rows data df :
  pd.DataFrame_init data column_names = Ok df →
  pd.to_csv df = header_row +:+ String.concat EmptyString (pd.csv_line ∘ padded <$> data).
Proof.
  unfold pd.DataFrame_init, pd.to_csv. destruct data as [|row data].
  - intros [= <-]. simpl. by rewrite csv_line_column_names.
  - rewrite column_names_length.
    destruct (Nat.eqb_spec 41 (pd.width (row :: data))) as [<-|]; [|done].
    intros [= <-]. cbn [pd.columns pd.values]. rewrite csv_line_column_names.
    f_equal. f_equal. exact (csv_lines_object_rows (row :: data)).
Qed.

(** X9.  A run that ends well has built the table of the rows of the games,
    printed that table, and written [data.csv]: the header line, then one
    line of 41 fields for each game of the input, in the order of the games
    (the game's row, then empty fields). *)
Lemma main_Ok w w' :
  main w = (Ok (), w') →
  ∃ f rows df,
    files w !! pgn_file_path = Some f
    ∧ mapM game_row (games_of f) = Ok rows
    ∧ length rows = length (games_of f)
    ∧ pgn_to_dataframe (files w) pgn_file_path = Ok df
    ∧ df = {| pd.columns := column_names; pd.values := pd.object_row 41 <$> rows |}
    ∧ stdout w' = stdout w ++ [frame_repr df]
    ∧ files w' = <["data.csv" :=
         header_row +:+ String.concat EmptyString (pd.csv_line ∘ padded <$> rows)]> (files w).
Proof.
  unfold main. destruct (pgn_to_dataframe _ _) as [df| |] eqn:Hdf; [|done..].
  intros [= <-]. pose proof Hdf as Hdf'. unfold pgn_to_dataframe in Hdf.
  apply bind_Ok in Hdf as (rows & Hrows & Hdf).
  destruct (files w !! pgn_file_path) as [f|] eqn:Hf;
    [|by unfold read_rows, open in Hrows; rewrite Hf in Hrows].
  rewrite (read_rows_games _ _ f Hf) in Hrows.
  exists f, rows, df. split; [done|]. split; [done|].
  split; [by eapply mapM_game_row_length|]. split; [done|].
  split.
  { unfold pd.DataFrame_init in Hdf. destruct rows as [|row rows]; [by injection Hdf|].
    rewrite column_names_length in Hdf.
    destruct (Nat.eqb_spec 41 (pd.width (row :: rows))) as [<-|]; [|done].
    by injection Hdf. }
  split; [done|].
  simpl. by rewrite (to_csv_rows _ _ Hdf).
Qed.

(** C8.  Where the run departs from the specification: when the input has games and
    each of them has fewer than 40 half-moves, no row has 41 entries,
    [pd.DataFrame] refuses the rows with a [ValueError], and the run ends
    there: nothing is printed and [data.csv] is not written. *)
Theorem short_games_only w f :
  files w !! pgn_file_path = Some f →
  games_of f ≠ [] →
  Forall (λ game, is_Some (headers game !! "Result")
                  ∧ length (mainline_moves game) < 40) (games_of f) →
  ∃ msg, main w = (Raise (ValueError msg), w).
Proof.
  intros Hf Hsome (rows & Hrows & Hlen & Hall)%mapM_game_row_short.
  unfold main, pgn_to_dataframe. rewrite (read_rows_games _ _ f Hf), Hrows. simpl.
  unfold pd.DataFrame_init.
  destruct rows as [|row rows]; [by destruct (games_of f)|].
  rewrite column_names_length.
  pose proof (width_bound 40 _ Hall) as Hwidth.
  destruct (Nat.eqb_spec 41 (pd.width (row :: rows))) as [E|_]; [lia|].
  by eexists.
Qed.

End table.

(** ** Games read from the input *)

Section parsed.
Context `{chess : PgnLib} {laws : PgnLaws} `{pandas : FrameRepr}.

Lemma read_all_read fuel f game :
  game ∈ read_all fuel f → ∃ f1 f2, read_game f1 = Some (game, f2).
Proof.
  revert f; induction fuel as [|fuel IH]; intros f; simpl; [by intros ?%elem_of_nil|].
  destruct (read_game f) as [[g f']|] eqn:Hread; [|by intros ?%elem_of_nil].
  intros [->|Hin]%elem_of_cons; eauto.
Qed.

Lemma games_of_results f :
  Forall (λ game, is_Some (headers game !! "Result")) (games_of f).
Proof.
  apply Forall_forall. intros game (f1 & f2 & Hread)%read_all_read.
  by eapply read_game_result.
Qed.

Lemma parse_inverts_san_take n board mainline :
  parse_inverts_san board mainline → parse_inverts_san board (take n mainline).
Proof.
  revert n board; induction mainline as [|move mainline IH]; intros [|n] board; simpl;
    [done..|].
  intros [Hmove Hrest]. split; [done|]. by apply IH.
Qed.



End parsed.

(** ** The script on the small chess library *)

Lemma row_of_long_game_knights :
  ∃ row, game_row (chess:=Mini.lib) (Mini.game_of_line Mini.knights) = Ok row
    ∧ row = san_line (chess:=Mini.lib) Mini.starting_board
              (take 40 (mainline_moves (Mini.game_of_line Mini.knights))) ++ ["1/2-1/2"]
    ∧ length (take 40 (mainline_moves (Mini.game_of_line Mini.knights))) = 40
    ∧ length row = 41.
Proof.
  apply (row_of_long_game (chess:=Mini.lib) (Mini.game_of_line Mini.knights) "1/2-1/2").
  - vm_compute. lia.
  - vm_compute. reflexivity.
Defined.

Lemma row_of_short_game_opening :
  ∃ row, game_row (chess:=Mini.lib) (Mini.game_of_line Mini.opening) = Ok row
    ∧ row = san_line (chess:=Mini.lib) Mini.starting_board
              (mainline_moves (Mini.game_of_line Mini.opening)) ++ ["1-0"]
    ∧ length row = 3 + 1.
Proof.
  apply (row_of_short_game (chess:=Mini.lib) (Mini.game_of_line Mini.opening) "1-0" 3).
  - vm_compute. reflexivity.
  - lia.
  - vm_compute. reflexivity.
Defined.

Lemma row_ends_with_each_result :
  Forall (λ result, ∃ row, game_row (chess:=Mini.lib) (Mini.unplayed result) = Ok row
                      ∧ last row = Some result)
    ["1-0"; "0-1"; "1/2-1/2"; "*"].
Proof.
  repeat constructor;
    (apply (row_ends_with_result (chess:=Mini.lib)); vm_compute; reflexivity).
Defined.

Lemma row_of_unplayed_game :
  1 ≤ length ["*"] ≤ 41
  ∧ ∃ result, headers (Mini.unplayed "*") !! "Result" = Some result
      ∧ last ["*"] = Some result
      ∧ (mainline_moves (Mini.unplayed "*") = [] → ["*"] = [result]).
Proof.
  apply (row_is_not_empty (chess:=Mini.lib) (Mini.unplayed "*") ["*"]).
  vm_compute. reflexivity.
Defined.





Lemma no_games_empty_file :
  let table := {| pd.columns := column_names; pd.values := [] |} in
  pgn_to_dataframe (chess:=Mini.lib) (files (Mini.world "")) pgn_file_path = Ok table
  ∧ length (pd.columns table) = 41
  ∧ pd.columns table !! 0 = Some "Ply 1"
  ∧ pd.columns table !! 39 = Some "Ply 40"
  ∧ pd.columns table !! 40 = Some "Result"
  ∧ pd.to_csv table = header_row
  ∧ main (chess:=Mini.lib) (pandas:=Mini.repr) (Mini.world "")
    = (Ok (), write_file "data.csv" header_row (print (@frame_repr Mini.repr table) (Mini.world "")))
  ∧ files (main (chess:=Mini.lib) (pandas:=Mini.repr) (Mini.world "")).2 !! "data.csv"
    = Some header_row
  ∧ stdout (main (chess:=Mini.lib) (pandas:=Mini.repr) (Mini.world "")).2
    = stdout (Mini.world "") ++ [@frame_repr Mini.repr table].
Proof.
  apply (no_games (chess:=Mini.lib) (pandas:=Mini.repr) (Mini.world "") "").
  - vm_compute. reflexivity.
  - reflexivity.
Defined.

(** C3.  The input with the one game [e4 e5 Nf3] and the result [1-0]: the
    row assembled is [e4, e5, Nf3, 1-0], four entries.  The table of 41
    columns is not built from it: [pd.DataFrame] raises, the run ends, and
    neither a header line nor a data line is written. *)
Lemma one_short_game :
  read_rows (chess:=Mini.lib) (files (Mini.world (Mini.text [Mini.opening]))) pgn_file_path
  = Ok [["e4"; "e5"; "Nf3"; "1-0"]]
  ∧ main (chess:=Mini.lib) (pandas:=Mini.repr) (Mini.world (Mini.text [Mini.opening]))
    = (Raise (ValueError "41 columns passed, passed data had 4 columns"),
       Mini.world (Mini.text [Mini.opening]))
  ∧ files (main (chess:=Mini.lib) (pandas:=Mini.repr)
             (Mini.world (Mini.text [Mini.opening]))).2 !! "data.csv" = None.
Proof. vm_compute. repeat split. Qed.

Lemma two_short_games :
  ∃ msg, main (chess:=Mini.lib) (pandas:=Mini.repr)
           (Mini.world (Mini.text [Mini.opening; "1. d4 0-1"]))
         = (Raise (ValueError msg), Mini.world (Mini.text [Mini.opening; "1. d4 0-1"])).
Proof.
  apply (short_games_only (chess:=Mini.lib) (pandas:=Mini.repr)
           (Mini.world (Mini.text [Mini.opening; "1. d4 0-1"]))
           (Mini.text [Mini.opening; "1. d4 0-1"])).
  - vm_compute. reflexivity.
  - vm_compute. discriminate.
  - vm_compute. repeat constructor; eauto.
Defined.

(** With a game of 40 plies or more in the input the table is built, and a
    shorter game gets a line of 41 fields: its row, then empty fields. *)
Lemma long_and_short_game :
  files (main (chess:=Mini.lib) (pandas:=Mini.repr)
           (Mini.world (Mini.text [Mini.knights; Mini.opening]))).2 !! "data.csv"
  = Some (header_row
          +:+ "Nf3,Nf6,Ng1,Ng8,Nf3,Nf6,Ng1,Ng8,Nf3,Nf6,Ng1,Ng8,Nf3,Nf6,Ng1,Ng8,Nf3,Nf6,Ng1,Ng8,Nf3,Nf6,Ng1,Ng8,Nf3,Nf6,Ng1,Ng8,Nf3,Nf6,Ng1,Ng8,Nf3,Nf6,Ng1,Ng8,Nf3,Nf6,Ng1,Ng8,1/2-1/2"
          +:+ String pd.LF "e4,e5,Nf3,1-0,,,,,,,,,,,,,,,,,,,,,,,,,,,,,,,,,,,,,"
          +:+ String pd.LF EmptyString).
Proof. vm_compute. reflexivity. Qed.


(** * Further properties of the script *)

(** ** The loop over the mainline *)

Section mainline.
Context `{chess : PgnLib}.

Lemma mainline_loop_board mainline moves board :
  length moves < 40 →
  (mainline_loop mainline moves board).2
  = foldl push board (take (40 - length moves) mainline).
Proof.
  revert moves board.
  induction mainline as [|move mainline IH]; intros moves board Hlen; simpl.
  - by rewrite take_nil.
  - rewrite length_app; simpl.
    destruct (Nat.eqb_spec (length moves + 1) 40) as [E|E]; simpl.
    + by replace (40 - length moves) with 1 by lia.
    + rewrite IH by (rewrite length_app; simpl; lia).
      rewrite length_app; simpl.
      by replace (40 - length moves) with (S (40 - (length moves + 1))) by lia.
Qed.

(** X1.  The loop keeps the board and the list of notations in step: when it
    ends, [moves] holds the notation of the first 40 moves of the mainline
    (of all of them when there are fewer) and [board] is the position after
    exactly those moves; no move past the cutoff is rendered or played. *)
Theorem loop_renders_and_plays mainline board :
  mainline_loop mainline [] board
  = (san_line board (take 40 mainline), foldl push board (take 40 mainline)).
Proof.
  pose proof (mainline_loop_moves mainline [] board) as Hmoves.
  pose proof (mainline_loop_board mainline [] board) as Hboard.
  destruct (mainline_loop mainline [] board) as [moves board']; simpl in *.
  by rewrite Hmoves, Hboard by lia.
Qed.

(** X2.  The moves after the 40th never reach the row: two games with the
    same starting position, the same first 40 moves and the same [Result]
    header give the same row, or fail alike. *)
Theorem later_moves_do_not_matter (game1 game2 : Game Board Move) :
  game_board game1 = game_board game2 →
  take 40 (mainline_moves game1) = take 40 (mainline_moves game2) →
  headers game1 !! "Result" = headers game2 !! "Result" →
  game_row game1 = game_row game2.
Proof.
  intros Hboard Hmoves Hres. rewrite !game_row_moves. unfold getitem.
  by rewrite Hboard, Hmoves, Hres.
Qed.

End mainline.

(** ** When the run ends well, and what it leaves behind *)

Section outcome.
Context `{chess : PgnLib} `{pandas : FrameRepr}.

Lemma mapM_game_row_lookup games rows i game :
  mapM game_row games = Ok rows →
  games !! i = Some game →
  ∃ row, rows !! i = Some row ∧ game_row game = Ok row.
Proof.
  revert rows i; induction games as [|g games IH]; intros rows i; simpl; [done|].
  intros (row & Hrow & (rows' & Hrows & [= <-])%bind_Ok)%bind_Ok.
  destruct i as [|i]; simpl.
  - intros [= <-]. eauto.
  - by apply IH.
Qed.

Lemma mapM_game_row_results games rows :
  mapM game_row games = Ok rows →
  Forall (λ game, is_Some (headers game !! "Result")) games.
Proof.
  revert rows; induction games as [|g games IH]; intros rows; simpl; [by constructor|].
  intros (row & Hrow & (rows' & Hrows & _)%bind_Ok)%bind_Ok.
  constructor; [|by eapply IH].
  apply game_row_Ok in Hrow as (result & Hres & _). by eexists.
Qed.

(** The longest row has 41 entries exactly when a game has 40 moves or
    more; no row is longer. *)
Lemma mapM_game_row_width games rows :
  mapM game_row games = Ok rows →
  pd.width rows ≤ 41
  ∧ (pd.width rows = 41 ↔ Exists (λ game, 40 ≤ length (mainline_moves game)) games).
Proof.
  revert rows; induction games as [|g games IH]; intros rows; simpl.
  - intros [= <-]; simpl. split; [lia|]. split; [lia|]. by intros ?%Exists_nil.
  - intros (row & Hrow & (rows' & Hrows & [= <-])%bind_Ok)%bind_Ok.
    destruct (IH _ Hrows) as [Hle Hiff].
    apply game_row_Ok in Hrow as (result & _ & ->). simpl.
    rewrite length_app, san_line_length, length_take.
    change (length [result]) with 1. rewrite Exists_cons.
    split; [lia|]. split.
    + intros Hmax.
      destruct (decide (40 ≤ length (mainline_moves g))); [by left|].
      right. apply Hiff. lia.
    + intros [Hlong|Hex%Hiff]; lia.
Qed.

(** X3.  The [while] loop ends on every input: a run either returns or
    raises, since each game read shortens the text left to read. *)
Theorem main_ends w :
  (main w).1 = Ok () ∨ ∃ e, (main w).1 = Raise e.
Proof.
  unfold main, pgn_to_dataframe.
  pose proof (read_rows_ends (files w) pgn_file_path) as Hends.
  destruct (read_rows (files w) pgn_file_path) as [rows| |]; simpl; [| |done].
  - destruct (pd.DataFrame_init rows column_names) as [df| |] eqn:Hdf; simpl; eauto.
    unfold pd.DataFrame_init in Hdf. destruct rows; [done|]. by case_match.
  - eauto.
Qed.

(** X4.  Without the input file the run ends in [FileNotFoundError]: nothing
    is printed and no file is written. *)
Theorem missing_input_file w :
  files w !! pgn_file_path = None →
  main w = (Raise (FileNotFoundError pgn_file_path), w).
Proof.
  intros Hf. unfold main, pgn_to_dataframe, read_rows, open. by rewrite Hf.
Qed.

(** X5.  A run ends well only if the input file is there, every game in it
    has a [Result] header, and either it holds no game or one of its games
    has 40 half-moves or more. *)
Theorem main_Ok_only_if w :
  (main w).1 = Ok () →
  ∃ f, files w !! pgn_file_path = Some f
    ∧ Forall (λ game, is_Some (headers game !! "Result")) (games_of f)
    ∧ (games_of f = []
       ∨ Exists (λ game, 40 ≤ length (mainline_moves game)) (games_of f)).
Proof.
  unfold main, pgn_to_dataframe.
  destruct (files w !! pgn_file_path) as [f|] eqn:Hf;
    [|by unfold read_rows, open; rewrite Hf].
  rewrite (read_rows_games _ _ f Hf).
  destruct (mapM game_row (games_of f)) as [rows| |] eqn:Hrows; simpl; [|done..].
  intros Hok. exists f. split; [done|].
  split; [by eapply mapM_game_row_results|].
  destruct rows as [|row rows].
  - left. apply mapM_game_row_length in Hrows. by destruct (games_of f).
  - right. apply (mapM_game_row_width _ _ Hrows).
    unfold pd.DataFrame_init in Hok. rewrite column_names_length in Hok.
    by destruct (Nat.eqb_spec 41 (pd.width (row :: rows))).
Qed.

(** X6.  The only file a run may change is [data.csv]: every other file,
    the input among them, is after the run what it was before. *)
Theorem other_files_untouched w path :
  path ≠ "data.csv" →
  files (main w).2 !! path = files w !! path.
Proof.
  intros Hpath. unfold main.
  destruct (pgn_to_dataframe (files w) pgn_file_path); simpl; [|done..].
  by rewrite lookup_insert_ne.
Qed.

(** X8.  Where the result lands in the table.  In the table a run builds,
    the line of a game has 41 cells; the game's result is in the cell after
    its last rendered move, and so in the [Result] column (cell 40) only for
    a game of 40 half-moves or more: for a shorter game that column is
    empty. *)
Theorem result_column fs pgn_file f df i game :
  fs !! pgn_file = Some f →
  pgn_to_dataframe fs pgn_file = Ok df →
  games_of f !! i = Some game →
  ∃ result cells,
    headers game !! "Result" = Some result
    ∧ pd.values df !! i = Some cells
    ∧ length cells = 41
    ∧ cells !! (40 `min` length (mainline_moves game)) = Some (Some result)
    ∧ (length (mainline_moves game) < 40 → cells !! 40 = Some None).
Proof.
  intros Hf Hdf Hgame. unfold pgn_to_dataframe in Hdf.
  rewrite (read_rows_games _ _ f Hf) in Hdf.
  apply bind_Ok in Hdf as (rows & Hrows & Hdf).
  destruct (mapM_game_row_lookup _ _ _ _ Hrows Hgame) as (row & Hrow & Hgrow).
  apply game_row_Ok in Hgrow as (result & Hres & Hroweq).
  exists result, (pd.object_row 41 row).
  assert (length row = 40 `min` length (mainline_moves game) + 1) as Hlen.
  { rewrite Hroweq, length_app, san_line_length, length_take. done. }
  split; [done|]. split.
  { unfold pd.DataFrame_init in Hdf. destruct rows as [|r rows]; [done|].
    rewrite column_names_length in Hdf.
    destruct (Nat.eqb_spec 41 (pd.width (r :: rows))) as [<-|]; [|done].
    assert (df = {| pd.columns := column_names;
                    pd.values := pd.object_row 41 <$> r :: rows |}) as ->
      by congruence.
    cbn [pd.values]. by rewrite list_lookup_fmap, Hrow. }
  unfold pd.object_row. split.
  { rewrite length_app, length_fmap, length_replicate. lia. }
  split.
  - rewrite lookup_app_l by (rewrite length_fmap; lia).
    rewrite list_lookup_fmap, Hroweq.
    replace (40 `min` length (mainline_moves game))
      with (length (san_line (game_board game) (take 40 (mainline_moves game))))
      by (by rewrite san_line_length, length_take).
    by rewrite list_lookup_middle.
  - intros Hshort. rewrite lookup_app_r by (rewrite length_fmap; lia).
    rewrite length_fmap. apply lookup_replicate_2. lia.
Qed.

End outcome.

(** ** These properties on the small chess library *)

Lemma later_moves_do_not_matter_knights :
  let game1 := Mini.game_of_line Mini.knights in
  let game2 :=
    {| game_board := Mini.starting_board;
       mainline_moves := take 40 (mainline_moves game1) ++ [((4, 1), (4, 3))];
       headers := {[ "Result" := "1/2-1/2" ]} |} in
  game_row (chess:=Mini.lib) game1 = game_row (chess:=Mini.lib) game2.
Proof.
  apply (later_moves_do_not_matter (chess:=Mini.lib)).
  - reflexivity.
  - vm_compute. reflexivity.
  - vm_compute. reflexivity.
Defined.

Lemma missing_input_file_no_files :
  main (chess:=Mini.lib) (pandas:=Mini.repr) {| files := ∅; stdout := [] |}
  = (Raise (FileNotFoundError pgn_file_path), {| files := ∅; stdout := [] |}).
Proof.
  apply (missing_input_file (chess:=Mini.lib) (pandas:=Mini.repr)).
  reflexivity.
Defined.

Lemma input_file_untouched :
  files (main (chess:=Mini.lib) (pandas:=Mini.repr)
           (Mini.world (Mini.text [Mini.knights; Mini.opening]))).2 !! pgn_file_path
  = files (Mini.world (Mini.text [Mini.knights; Mini.opening])) !! pgn_file_path.
Proof.
  apply (other_files_untouched (chess:=Mini.lib) (pandas:=Mini.repr)).
  discriminate.
Defined.

Lemma result_column_short_game :
  ∃ result cells,
    headers (Mini.game_of_line Mini.opening) !! "Result" = Some result
    ∧ pd.values
        {| pd.columns := column_names;
           pd.values :=
             [pd.object_row 41
                (san_line (chess:=Mini.lib) Mini.starting_board
                   (take 40 (mainline_moves (Mini.game_of_line Mini.knights)))
                 ++ ["1/2-1/2"]);
              pd.object_row 41 ["e4"; "e5"; "Nf3"; "1-0"]] |} !! 1 = Some cells
    ∧ length cells = 41
    ∧ cells !! (40 `min` length (mainline_moves (Mini.game_of_line Mini.opening)))
      = Some (Some result)
    ∧ (length (mainline_moves (Mini.game_of_line Mini.opening)) < 40
       → cells !! 40 = Some None).
Proof.
  apply (result_column (chess:=Mini.lib)
           (files (Mini.world (Mini.text [Mini.knights; Mini.opening]))) pgn_file_path
           (Mini.text [Mini.knights; Mini.opening])).
  - vm_compute. reflexivity.
  - vm_compute. reflexivity.
  - vm_compute. reflexivity.
Defined.

Lemma main_Ok_only_if_long_and_short_game :
  ∃ f, files (Mini.world (Mini.text [Mini.knights; Mini.opening])) !! pgn_file_path = Some f
    ∧ Forall (λ game, is_Some (headers game !! "Result")) (games_of (chess:=Mini.lib) f)
    ∧ (games_of (chess:=Mini.lib) f = []
       ∨ Exists (λ game, 40 ≤ length (mainline_moves game)) (games_of (chess:=Mini.lib) f)).
Proof.
  apply (main_Ok_only_if (chess:=Mini.lib) (pandas:=Mini.repr)).
  vm_compute. reflexivity.
Defined.

Lemma main_Ok_long_and_short_game :
  let w := Mini.world (Mini.text [Mini.knights; Mini.opening]) in
  let w' := (main (chess:=Mini.lib) (pandas:=Mini.repr) w).2 in
  ∃ f rows df,
    files w !! pgn_file_path = Some f
    ∧ mapM (game_row (chess:=Mini.lib)) (games_of (chess:=Mini.lib) f) = Ok rows
    ∧ length rows = length (games_of (chess:=Mini.lib) f)
    ∧ pgn_to_dataframe (chess:=Mini.lib) (files w) pgn_file_path = Ok df
    ∧ df = {| pd.columns := column_names; pd.values := pd.object_row 41 <$> rows |}
    ∧ stdout w' = stdout w ++ [@frame_repr Mini.repr df]
    ∧ files w' = <["data.csv" :=
         header_row +:+ String.concat EmptyString (pd.csv_line ∘ padded <$> rows)]> (files w).
Proof.
  apply (main_Ok (chess:=Mini.lib) (pandas:=Mini.repr)).
  vm_compute. reflexivity.
Defined.
